(** * Tic Tac Toe: a shallow embedding of [tic_tac_toe.py]

    The board is a Python [List[str]], modelled as [list string]; the
    marks are the one-character strings the program stores in it.  List
    indexing that Python would reject raises [IndexError] here as well,
    [input()] on an exhausted standard input raises [EOFError], and the
    console is an explicit pair of the lines still to be read and the
    chunks of text written so far. *)

From Stdlib Require Import ZArith Lia Ascii.
From stdpp Require Import base decidable option list strings.

(** ** Exceptions that escape a function of the module *)

Inductive exception : Set :=
| IndexError
| EOFError.

Inductive result (A : Type) : Type :=
| Ok (a : A)
| Raise (e : exception).

Arguments Ok {A} a.
Arguments Raise {A} e.

#[global] Instance result_ret : MRet result := fun A a => Ok a.

#[global] Instance result_bind : MBind result := fun A B f m =>
  match m with
  | Ok a => f a
  | Raise e => Raise e
  end.

(** [l[i]] for a non-negative index. *)
Definition getitem (l : list string) (i : nat) : result string :=
  match l !! i with
  | Some x => Ok x
  | None => Raise IndexError
  end.

(** [l[i] = x] for a non-negative index: in place when [i] is in range,
    [IndexError] otherwise. *)
Definition setitem (l : list string) (i : nat) (x : string) : result (list string) :=
  if decide (i < length l) then Ok (<[i:=x]> l) else Raise IndexError.

(** ** The game state *)

Record GameState : Set := mkGame {
  board : list string;
  current_player : string
}.

(** [GameState.switch_player]: ["O" if self.current_player == "X" else "X"]. *)
Definition switch_player (game : GameState) : GameState :=
  {| board := board game;
     current_player := if bool_decide (current_player game = "X") then "O" else "X" |}.

Definition WINNING_COMBINATIONS : list (nat * nat * nat) :=
  [ (0, 1, 2); (3, 4, 5); (6, 7, 8);
    (0, 3, 6); (1, 4, 7); (2, 5, 8);
    (0, 4, 8); (2, 4, 6) ].

(** [create_game]: [GameState(board=[" "] * 9)], the player defaulting to ["X"]. *)
Definition create_game : GameState :=
  {| board := replicate 9 " "; current_player := "X" |}.

(** ** Rendering *)

Definition newline : string := String (Ascii.ascii_of_nat 10) EmptyString.

Definition separator : string := newline +:+ "---------" +:+ newline.

(** [format_board]: the slices [board[i : i + 3]] for [i] in
    [range(0, 9, 3)], each joined by [" | "], the rows joined by the
    separator.  Slicing never raises. *)
Definition format_board (cells : list string) : string :=
  let rows := map (fun i => String.concat " | " (take 3 (drop i cells))) [0; 3; 6] in
  String.concat separator rows.

(** ** Terminal conditions *)

(** The test of one combination:
    [board[a] != " " and board[a] == board[b] == board[c]], evaluated
    left to right with Python's short circuits. *)
Definition line_complete (cells : list string) (combo : nat * nat * nat) : result bool :=
  let '(a, b, c) := combo in
  x ← getitem cells a;
  if bool_decide (x ≠ " ") then
    x' ← getitem cells a;
    y ← getitem cells b;
    if bool_decide (x' = y) then
      z ← getitem cells c;
      mret (bool_decide (y = z))
    else mret false
  else mret false.

Fixpoint winner_scan (cells : list string) (combos : list (nat * nat * nat))
  : result (option string) :=
  match combos with
  | [] => mret None
  | (a, b, c) :: rest =>
      hit ← line_complete cells (a, b, c);
      if hit : bool then x ← getitem cells a; mret (Some x)
      else winner_scan cells rest
  end.

(** [winner]: the loop over [WINNING_COMBINATIONS], [None] when it ends. *)
Definition winner (cells : list string) : result (option string) :=
  winner_scan cells WINNING_COMBINATIONS.

(** [is_draw]: [all(square != " " for square in board)]. *)
Definition is_draw (cells : list string) : bool :=
  forallb (fun square => bool_decide (square ≠ " ")) cells.

(** Truth value of an [Optional[str]] in [if win:]: [None] and the empty
    string are false. *)
Definition truthy (win : option string) : bool :=
  match win with
  | None => false
  | Some s => bool_decide (s ≠ "")
  end.

(** ** Console *)

(** The lines standard input still holds, and the chunks of text written
    to standard output, oldest first. *)
Record console : Set := mkConsole {
  stdin : list string;
  stdout : list string
}.

(** [print(s)]. *)
Definition py_print (s : string) (io : console) : console :=
  {| stdin := stdin io; stdout := stdout io ++ [s +:+ newline] |}.

(** [print_board]. *)
Definition print_board (cells : list string) (io : console) : console :=
  py_print (format_board cells) io.

(** The two builtins [take_turn] applies to the text it reads: [str.strip]
    and [int] on a [str], the latter giving [None] where Python raises
    [ValueError]. *)
Class PyText : Type := {
  str_strip : string -> string;
  str_to_int : string -> option Z
}.

(** ** One turn *)

Inductive rejection : Set :=
| InvalidPosition   (* the [except ValueError] branch *)
| CellOccupied.     (* the square is already taken *)

Inductive outcome : Set :=
| Applied
| Rejected (why : rejection).

Definition message (why : rejection) : string :=
  match why with
  | InvalidPosition => "Please enter a number from 1 to 9."
  | CellOccupied => "That square is already taken. Try again."
  end.

Definition prompt (game : GameState) : string :=
  "Player " +:+ current_player game +:+ ", choose a square (1-9): ".

(** The body of the loop of [take_turn] from the range test on, for the
    0-based [position] computed from the text: [position not in range(9)]
    raises the [ValueError] that is caught at once, an occupied square is
    refused, and otherwise the square is assigned.  The game comes back
    as the body leaves it. *)
Definition apply_move (game : GameState) (position : Z) : result (GameState * outcome) :=
  if bool_decide (0 <= position < 9)%Z then
    square ← getitem (board game) (Z.to_nat position);
    if bool_decide (square ≠ " ") then mret (game, Rejected CellOccupied)
    else
      cells ← setitem (board game) (Z.to_nat position) (current_player game);
      mret ({| board := cells; current_player := current_player game |}, Applied)
  else mret (game, Rejected InvalidPosition).

(** ** The session *)

Inductive session : Set :=
| InProgress (game : GameState)
| Won (mark : string) (game : GameState)
| Draw (game : GameState).

Definition game_of (s : session) : GameState :=
  match s with
  | InProgress game | Won _ game | Draw game => game
  end.

Definition terminal (s : session) : bool :=
  match s with
  | InProgress _ => false
  | _ => true
  end.

Section Turn.
Context `{PyText}.

(** One pass through the loop body of [take_turn] on the line [choice]
    that [input] returned: [int(choice.strip()) - 1], then the checks. *)
Definition turn_attempt (game : GameState) (choice : string)
  : result (GameState * outcome) :=
  match str_to_int (str_strip choice) with
  | None => mret (game, Rejected InvalidPosition)
  | Some n => apply_move game (n - 1)
  end.

(** The [while True] of [take_turn], reading from [lines] and having
    written [out]; [input] first writes the prompt, and raises
    [EOFError] when no line is left. *)
Fixpoint take_turn_from (game : GameState) (lines out : list string)
  : result (GameState * console) :=
  match lines with
  | [] => Raise EOFError
  | choice :: lines' =>
      let out' := out ++ [prompt game] in
      match turn_attempt game choice with
      | Raise e => Raise e
      | Ok (game', Applied) => Ok (game', mkConsole lines' out')
      | Ok (game', Rejected why) =>
          take_turn_from game' lines' (out' ++ [message why +:+ newline])
      end
  end.

Definition take_turn (game : GameState) (io : console) : result (GameState * console) :=
  take_turn_from game (stdin io) (stdout io).

(** What [play_game] does after a turn once [if win:] was false. *)
Definition after_no_winner (game : GameState) (io : console) : session * console :=
  if is_draw (board game) then
    (Draw game, py_print (newline +:+ "It's a draw!") (print_board (board game) io))
  else (InProgress (switch_player game), io).

(** What [play_game] does after a turn: the winner test, the draw
    test, and the switch of player. *)
Definition after_turn (game : GameState) (io : console) : result (session * console) :=
  win ← winner (board game);
  match win with
  | Some mark =>
      if truthy win then
        mret (Won mark game,
              py_print (newline +:+ "Player " +:+ mark +:+ " wins! Congratulations!")
                (print_board (board game) io))
      else mret (after_no_winner game io)
  | None => mret (after_no_winner game io)
  end.

(** One pass through the loop body of [play_game]. *)
Definition play_iteration (game : GameState) (io : console) : result (session * console) :=
  '(game', io') ← take_turn game (print_board (board game) io);
  after_turn game' io'.

(** The [while True] of [play_game], for at most [fuel] passes; [None]
    when the passes are used up before a [break] or an exception. *)
Fixpoint play_loop (fuel : nat) (game : GameState) (io : console)
  : option (result (session * console)) :=
  match fuel with
  | O => None
  | S fuel' =>
      match play_iteration game io with
      | Raise e => Some (Raise e)
      | Ok (InProgress game', io') => play_loop fuel' game' io'
      | Ok (s, io') => Some (Ok (s, io'))
      end
  end.

(** [play_game]: every pass reads a line, so one pass per line of
    input and one more is enough. *)
Definition play_game (io : console) : option (result (session * console)) :=
  play_loop (S (length (stdin io))) create_game
    (py_print ("Welcome to Tic Tac Toe! Player X goes first." +:+ newline) io).

(** The step relation of a session: one pass of the loop of [play_game]
    on some console. *)
Definition step (s s' : session) : Prop :=
  exists game io io', s = InProgress game /\ play_iteration game io = Ok (s', io').

Inductive reachable : session -> Prop :=
| reach_create : reachable (InProgress create_game)
| reach_step s s' : reachable s -> step s s' -> reachable s'.

End Turn.

(** ** A reading of the builtins on plain decimal text *)

Fixpoint lstrip (s : string) : string :=
  match s with
  | EmptyString => EmptyString
  | String c s' => if Ascii.is_space c then lstrip s' else s
  end.

Definition strip (s : string) : string :=
  String.rev (lstrip (String.rev (lstrip s))).

Fixpoint digits (s : string) (acc : Z) : option Z :=
  match s with
  | EmptyString => Some acc
  | String c s' =>
      match Ascii.is_nat c with
      | Some d => digits s' (10 * acc + Z.of_nat d)
      | None => None
      end
  end.

(** An optional sign and at least one decimal digit. *)
Definition decimal (s : string) : option Z :=
  match s with
  | EmptyString => None
  | String "-"%char EmptyString | String "+"%char EmptyString => None
  | String "-"%char s' => Z.opp <$> digits s' 0
  | String "+"%char s' => digits s' 0
  | _ => digits s 0
  end.

Definition decimal_text : PyText :=
  {| str_strip := strip; str_to_int := decimal |}.

(** ** Vocabulary of the properties *)

(** The combination holds the mark [m] three times, and [m] is not the
    empty square. *)
Definition line_won (cells : list string) (combo : nat * nat * nat) (m : string) : Prop :=
  cells !! combo.1.1 = Some m /\ cells !! combo.1.2 = Some m /\
  cells !! combo.2 = Some m /\ m ≠ " ".

Definition rows : list (nat * nat * nat) :=
  map (fun r => (3 * r, 3 * r + 1, 3 * r + 2)) [0; 1; 2].

Definition columns : list (nat * nat * nat) :=
  map (fun c => (c, c + 3, c + 6)) [0; 1; 2].

Definition diagonals : list (nat * nat * nat) := [(0, 4, 8); (2, 4, 6)].

Definition in_bounds (cells : list string) (combo : nat * nat * nat) : Prop :=
  combo.1.1 < length cells /\ combo.1.2 < length cells /\ combo.2 < length cells.

(** A square of the data model: empty, X or O. *)
Definition square_ok (c : string) : Prop := c = " " \/ c = "X" \/ c = "O".

Definition count_mark (m : string) (cells : list string) : Z :=
  Z.of_nat (length (filter (fun c => c = m) cells)).

Record well_formed (game : GameState) : Prop := {
  wf_length : length (board game) = 9;
  wf_squares : Forall square_ok (board game);
  wf_player : current_player game = "X" \/ current_player game = "O";
  wf_balance :
    (count_mark "X" (board game) - count_mark "O" (board game) = 0 \/
     count_mark "X" (board game) - count_mark "O" (board game) = 1)%Z
}.

Definition board_shape (game : GameState) : Prop :=
  length (board game) = 9 /\ Forall square_ok (board game).

(** Before a turn: the player to move is the one that is behind. *)
Definition to_move (game : GameState) : Prop :=
  (current_player game = "X" /\
   count_mark "X" (board game) - count_mark "O" (board game) = 0)%Z \/
  (current_player game = "O" /\
   count_mark "X" (board game) - count_mark "O" (board game) = 1)%Z.

(** After a turn, before the switch: the player that moved has caught up. *)
Definition has_moved (game : GameState) : Prop :=
  (current_player game = "X" /\
   count_mark "X" (board game) - count_mark "O" (board game) = 1)%Z \/
  (current_player game = "O" /\
   count_mark "X" (board game) - count_mark "O" (board game) = 0)%Z.

Definition session_inv (s : session) : Prop :=
  match s with
  | InProgress game => board_shape game /\ to_move game
  | Won _ game | Draw game => board_shape game /\ has_moved game
  end.

Definition no_line (cells : list string) (combo : nat * nat * nat) : Prop :=
  forall m, ~ line_won cells combo m.

(** Vocabulary of the further properties. *)

(** What [take_turn] writes for the lines it refuses, one prompt and one
    message each. *)
Definition refusal_output (game : GameState) (whys : list rejection) : list string :=
  flat_map (fun why => [prompt game; message why +:+ newline]) whys.

(** A string of exactly one character. *)
Definition one_char (s : string) : Prop := exists c, s = String c EmptyString.

(** The last line [play_game] prints in a terminal state. *)
Definition verdict (s : session) : string :=
  match s with
  | InProgress _ => ""
  | Won mark _ => newline +:+ "Player " +:+ mark +:+ " wins! Congratulations!"
  | Draw _ => newline +:+ "It's a draw!"
  end.

(** A game the loop of [play_game] goes on with: a board of the data
    model, the player behind to move, no combination complete. *)
Definition open_game (game : GameState) : Prop :=
  board_shape game /\ to_move game /\
  Forall (no_line (board game)) WINNING_COMBINATIONS /\
  is_draw (board game) = false.


(** X for O and O for X, every other string as it is. *)
Definition swap_marks (s : string) : string :=
  if bool_decide (s = "X") then "O" else if bool_decide (s = "O") then "X" else s.

(** * Properties *)

(** ** [winner] *)

Lemma getitem_lookup (cells : list string) (i : nat) (x : string) :
  cells !! i = Some x -> getitem cells i = Ok x.
Proof. intros E. unfold getitem. now rewrite E. Qed.

Lemma line_complete_eval (cells : list string) (a b c : nat) (x y z : string) :
  cells !! a = Some x -> cells !! b = Some y -> cells !! c = Some z ->
  line_complete cells (a, b, c) = Ok (bool_decide (x ≠ " " /\ x = y /\ y = z)).
Proof.
  intros Ea Eb Ec. unfold line_complete.
  rewrite (getitem_lookup _ _ _ Ea), (getitem_lookup _ _ _ Eb),
    (getitem_lookup _ _ _ Ec). cbn.
  repeat case_bool_decide; cbn; try reflexivity; exfalso; tauto.
Qed.

Lemma line_complete_true (cells : list string) (combo : nat * nat * nat) :
  in_bounds cells combo ->
  exists hit, line_complete cells combo = Ok hit /\
    (hit = true <-> exists m, line_won cells combo m).
Proof.
  destruct combo as [[a b] c]. intros (Ha & Hb & Hc). cbn in *.
  destruct (lookup_lt_is_Some_2 cells a Ha) as [x Ex].
  destruct (lookup_lt_is_Some_2 cells b Hb) as [y Ey].
  destruct (lookup_lt_is_Some_2 cells c Hc) as [z Ez].
  eexists. split; [exact (line_complete_eval _ _ _ _ _ _ _ Ex Ey Ez)|].
  rewrite bool_decide_eq_true. unfold line_won. cbn. split.
  - intros (Hx & -> & ->). exists z. auto.
  - intros (m & E1 & E2 & E3 & Hm). split_and!; congruence.
Qed.

Lemma winner_scan_spec (cells : list string) (combos : list (nat * nat * nat)) :
  Forall (in_bounds cells) combos ->
  exists r, winner_scan cells combos = Ok r /\
    (r = None -> Forall (no_line cells) combos) /\
    forall m, r = Some m <->
      exists before combo after,
        combos = before ++ combo :: after /\ line_won cells combo m /\
        Forall (no_line cells) before.
Proof.
  induction 1 as [|combo rest Hb _ IH].
  - exists None. split_and!; [reflexivity|constructor|].
    intros m. split; [discriminate|].
    intros (before & combo & after & E & _). now destruct before.
  - destruct (line_complete_true cells combo Hb) as (hit & Ehit & Hhit).
    destruct combo as [[a b] c]. cbn [winner_scan]. rewrite Ehit. cbn.
    destruct hit.
    + destruct (proj1 Hhit eq_refl) as (m0 & Hwon).
      pose proof Hwon as (Ea & _). cbn in Ea.
      rewrite (getitem_lookup _ _ _ Ea). cbn.
      eexists. split_and!; [reflexivity|discriminate|].
      intros m. split.
      * intros [= <-]. exists [], (a, b, c), rest. auto.
      * intros (before & combo & after & E & Hm & Hnone).
        destruct before as [|first before]; cbn in E.
        -- injection E as <- _. destruct Hm as (Ea' & _). cbn in Ea'. congruence.
        -- injection E as <- _. inversion Hnone as [|? ? Hfirst _].
           now destruct (Hfirst m0).
    + assert (Hno : no_line cells (a, b, c)).
      { intros m' Hm'. assert (false = true) by (apply Hhit; eauto). discriminate. }
      destruct IH as (r & Er & Hnone & Hr). exists r.
      split_and!; [exact Er|intros ->; constructor; auto|].
      intros m. rewrite Hr. split.
      * intros (before & combo & after & -> & Hm & Hbefore).
        exists ((a, b, c) :: before), combo, after. split_and!; auto.
      * intros (before & combo & after & E & Hm & Hbefore).
        destruct before as [|first before]; cbn in E.
        -- injection E as <- _. now destruct (Hno m).
        -- injection E as _ ->. inversion Hbefore; subst. eauto 6.
Qed.

Lemma combinations_in_bounds (cells : list string) :
  length cells = 9 -> Forall (in_bounds cells) WINNING_COMBINATIONS.
Proof.
  intros E. unfold WINNING_COMBINATIONS, in_bounds.
  repeat constructor; cbn; lia.
Qed.

(** On nine squares [winner] returns, and a mark exactly when some
    combination is complete. *)
Lemma winner_returns (cells : list string) :
  length cells = 9 ->
  exists r, winner cells = Ok r /\
    (r = None -> Forall (no_line cells) WINNING_COMBINATIONS) /\
    (forall m, r = Some m ->
       exists combo, combo ∈ WINNING_COMBINATIONS /\ line_won cells combo m).
Proof.
  intros Hlen.
  destruct (winner_scan_spec cells _ (combinations_in_bounds cells Hlen))
    as (r & Er & Hnone & Hr).
  exists r. split_and!; [exact Er|exact Hnone|].
  intros m Em. apply Hr in Em as (before & combo & after & E & Hm & _).
  exists combo. split; [|exact Hm].
  rewrite E. apply elem_of_app. right. apply elem_of_cons. now left.
Qed.

(** C1.  On a board of nine squares [winner] returns without an
    exception; it returns the mark [m] exactly when some combination holds
    [m] three times, [m] is not the empty square, and no combination
    earlier in [WINNING_COMBINATIONS] (rows, then columns, then diagonals)
    is complete; it returns a mark exactly when some combination is
    complete, and [None] exactly when none is. *)
Theorem winner_spec (cells : list string) :
  length cells = 9 ->
  (exists r, winner cells = Ok r) /\
  (forall m, winner cells = Ok (Some m) <->
     exists before combo after,
       WINNING_COMBINATIONS = before ++ combo :: after /\
       line_won cells combo m /\
       Forall (no_line cells) before) /\
  ((exists m, winner cells = Ok (Some m)) <->
     exists combo m, combo ∈ WINNING_COMBINATIONS /\ line_won cells combo m) /\
  (winner cells = Ok None <->
     forall combo, combo ∈ WINNING_COMBINATIONS -> no_line cells combo) /\
  WINNING_COMBINATIONS = rows ++ columns ++ diagonals.
Proof.
  intros Hlen.
  destruct (winner_scan_spec cells _ (combinations_in_bounds cells Hlen))
    as (r & Er & _ & Hr).
  destruct (winner_returns cells Hlen) as (r' & Er' & Hnone & Hsome).
  fold (winner cells) in Er.
  assert (r' = r) as -> by congruence. clear Er'.
  rewrite Forall_forall in Hnone.
  split_and!.
  - eauto.
  - intros m. rewrite Er, <- Hr. split; [now intros [= ->]|now intros ->].
  - rewrite Er. split.
    + intros (m & [= ->]). destruct (Hsome m eq_refl) as (combo & Hin & Hm). eauto.
    + intros (combo & m & Hin & Hm). destruct r as [m0|]; [eauto|].
      now destruct (Hnone eq_refl combo Hin m).
  - rewrite Er. split.
    + intros [= ->]. auto.
    + intros Hall. destruct r as [m|]; [|reflexivity].
      destruct (Hsome m eq_refl) as (combo & Hin & Hm).
      now destruct (Hall combo Hin m).
  - reflexivity.
Qed.

(** ** [take_turn] *)

Lemma apply_move_inv (game game' : GameState) (position : Z) (o : outcome) :
  apply_move game position = Ok (game', o) ->
  match o with
  | Rejected InvalidPosition => ~ (0 <= position <= 8)%Z /\ game' = game
  | Rejected CellOccupied =>
      (0 <= position <= 8)%Z /\ game' = game /\
      exists c, board game !! Z.to_nat position = Some c /\ c ≠ " "
  | Applied =>
      (0 <= position <= 8)%Z /\
      board game !! Z.to_nat position = Some " " /\
      game' = {| board := <[Z.to_nat position := current_player game]> (board game);
                 current_player := current_player game |}
  end.
Proof.
  unfold apply_move. case_bool_decide as Hrange.
  - unfold getitem. destruct (board game !! Z.to_nat position) as [c|] eqn:Ec;
      cbn; [|discriminate].
    case_bool_decide as Hc; cbn.
    + intros [= <- <-]. split; [lia|]. split; [reflexivity|eauto].
    + unfold setitem. apply lookup_lt_Some in Ec as Hlt.
      rewrite decide_True by exact Hlt. cbn. intros [= <- <-].
      split; [lia|]. split; [|reflexivity].
      destruct (decide (c = " ")); congruence.
  - cbn. intros [= <- <-]. split; [lia|reflexivity].
Qed.

Lemma apply_move_total (game : GameState) (position : Z) :
  length (board game) = 9 ->
  exists game' o, apply_move game position = Ok (game', o).
Proof.
  intros Hlen. unfold apply_move. case_bool_decide as Hrange; [|cbn; eauto].
  destruct (lookup_lt_is_Some_2 (board game) (Z.to_nat position)) as [c Ec]; [lia|].
  rewrite (getitem_lookup _ _ _ Ec). cbn.
  case_bool_decide; cbn; [eauto|].
  unfold setitem. rewrite decide_True by lia. cbn. eauto.
Qed.

Section TurnProperties.
Context `{PyText}.

(** C2.  On a board of nine squares the validate-and-apply step always
    returns; it refuses with [InvalidPosition] exactly when the 0-based
    position is outside 0..8 (and a line that is not a number is refused
    the same way), with [CellOccupied] exactly when the position is in
    range and its square is not empty; a refusal leaves the game, board
    and player, as it was, and [take_turn] goes on to prompt the same
    player from the same game. *)
Theorem apply_move_rejects (game : GameState) (position : Z) :
  length (board game) = 9 ->
  (exists game' o, apply_move game position = Ok (game', o)) /\
  ((exists game', apply_move game position = Ok (game', Rejected InvalidPosition)) <->
     ~ (0 <= position <= 8)%Z) /\
  ((exists game', apply_move game position = Ok (game', Rejected CellOccupied)) <->
     (0 <= position <= 8)%Z /\
     exists c, board game !! Z.to_nat position = Some c /\ c ≠ " ") /\
  (forall game' why,
     apply_move game position = Ok (game', Rejected why) -> game' = game) /\
  (forall choice,
     turn_attempt game choice =
       match str_to_int (str_strip choice) with
       | None => Ok (game, Rejected InvalidPosition)
       | Some n => apply_move game (n - 1)
       end) /\
  (forall choice game' why lines out,
     turn_attempt game choice = Ok (game', Rejected why) ->
     game' = game /\
     take_turn_from game (choice :: lines) out =
       take_turn_from game lines
         (out ++ [prompt game] ++ [message why +:+ newline])).
Proof.
  intros Hlen.
  destruct (apply_move_total game position Hlen) as (g1 & o & E).
  pose proof (apply_move_inv _ _ _ _ E) as Hinv.
  assert (Hsame : forall g p why,
             apply_move game p = Ok (g, Rejected why) -> g = game).
  { intros g p why Eg. apply apply_move_inv in Eg. destruct why; tauto. }
  split_and!.
  - eauto.
  - split.
    + intros (g & Eg). now apply apply_move_inv in Eg.
    + intros Hout. destruct o as [|[]]; [tauto|eauto|tauto].
  - split.
    + intros (g & Eg). apply apply_move_inv in Eg. tauto.
    + intros (Hin & c & Ec & Hc). destruct o as [|[]]; [|tauto|eauto].
      destruct Hinv as (_ & Eempty & _). congruence.
  - intros g why. apply Hsame.
  - intros choice. unfold turn_attempt. now destruct (str_to_int (str_strip choice)).
  - intros choice g why lines out Eg.
    assert (g = game) as ->.
    { unfold turn_attempt in Eg.
      destruct (str_to_int (str_strip choice)); [now apply Hsame in Eg|].
      now inversion Eg. }
    split; [reflexivity|]. cbn [take_turn_from]. rewrite Eg.
    now rewrite <- app_assoc.
Qed.

(** C3.  For a position in 0..8 whose square is empty the step succeeds;
    afterwards that square holds the current player's mark, every other
    square holds what it held, the board still has nine squares, and the
    current player is the same. *)
Theorem apply_move_sets_square (game : GameState) (position : Z) :
  length (board game) = 9 ->
  (0 <= position <= 8)%Z ->
  board game !! Z.to_nat position = Some " " ->
  exists game',
    apply_move game position = Ok (game', Applied) /\
    board game' !! Z.to_nat position = Some (current_player game) /\
    (forall q, q ≠ Z.to_nat position -> board game' !! q = board game !! q) /\
    length (board game') = 9 /\
    current_player game' = current_player game.
Proof.
  intros Hlen Hrange Hempty.
  destruct (apply_move_total game position Hlen) as (game' & o & E).
  pose proof (apply_move_inv _ _ _ _ E) as Hinv.
  destruct o as [|[]].
  - destruct Hinv as (_ & _ & ->). eexists. split; [exact E|]. cbn.
    split_and!.
    + apply list_lookup_insert_eq. lia.
    + intros q Hq. now apply list_lookup_insert_ne.
    + now rewrite length_insert.
    + reflexivity.
  - tauto.
  - destruct Hinv as (_ & _ & c & Ec & Hc). congruence.
Qed.

End TurnProperties.

(** ** [create_game], [is_draw], [switch_player], [format_board] *)

(** C4.  [create_game] gives a board of exactly nine squares, every one
    of them empty, with X to play. *)
Theorem create_game_spec :
  length (board create_game) = 9 /\
  Forall (fun square => square = " ") (board create_game) /\
  current_player create_game = "X".
Proof.
  split_and!; [reflexivity| |reflexivity].
  cbn. repeat constructor.
Qed.

Lemma is_draw_full (cells : list string) :
  is_draw cells = true <-> Forall (fun square => square ≠ " ") cells.
Proof.
  unfold is_draw. induction cells as [|square cells IH]; cbn.
  - split; [constructor|reflexivity].
  - rewrite andb_true_iff, IH, bool_decide_eq_true, Forall_cons. reflexivity.
Qed.

(** C5.  On a board of nine squares [is_draw] is true exactly when every
    square is non-empty, whether or not [winner] found a line; in
    particular when [winner] returned [None], it is true exactly when
    each of the nine indexes holds a non-empty square. *)
Theorem is_draw_spec (cells : list string) :
  length cells = 9 ->
  (is_draw cells = true <-> Forall (fun square => square ≠ " ") cells) /\
  (winner cells = Ok None ->
     (is_draw cells = true <->
        forall i, i < 9 -> exists square, cells !! i = Some square /\ square ≠ " ")).
Proof.
  intros Hlen. split; [apply is_draw_full|]. intros _.
  rewrite is_draw_full, Forall_lookup. split.
  - intros Hall i Hi.
    destruct (lookup_lt_is_Some_2 cells i) as [square E]; [lia|]. eauto.
  - intros Hall i square E. apply lookup_lt_Some in E as Hi.
    destruct (Hall i) as (square' & E' & Hne); [lia|]. congruence.
Qed.

(** C6.  With X or O to play, [switch_player] turns X into O and O into
    X, leaves the board alone, and applied twice gives the game back. *)
Theorem switch_player_involution (game : GameState) :
  current_player game = "X" \/ current_player game = "O" ->
  (current_player game = "X" -> current_player (switch_player game) = "O") /\
  (current_player game = "O" -> current_player (switch_player game) = "X") /\
  board (switch_player game) = board game /\
  current_player (switch_player (switch_player game)) = current_player game /\
  switch_player (switch_player game) = game.
Proof.
  destruct game as [cells player]. unfold switch_player. cbn.
  intros [-> | ->]; split_and!; intros; subst; try reflexivity; discriminate.
Qed.

(** C10.  Any player other than the string X, a string outside X and O
    included, is switched to X; two switches then give O, so the game
    comes back after two switches only when the player was O, and a
    player outside X and O is never restored. *)
Theorem switch_player_other (game : GameState) :
  current_player game ≠ "X" ->
  current_player (switch_player game) = "X" /\
  current_player (switch_player (switch_player game)) = "O" /\
  (switch_player (switch_player game) = game <-> current_player game = "O") /\
  (current_player game ≠ "O" ->
     current_player (switch_player (switch_player game)) ≠ current_player game).
Proof.
  destruct game as [cells player]. unfold switch_player. cbn. intros Hx.
  rewrite bool_decide_eq_false_2 by exact Hx. cbn.
  split_and!; try reflexivity.
  - split; [now intros [= <-]|now intros ->].
  - intros Ho Eo. now apply Ho.
Qed.

(** C7.  The text of a board of nine squares: three rows, each the three
    squares of that row with [" | "] between them, and between two
    consecutive rows the same separator, a line of nine dashes between
    two line breaks.  [format_board] is a function of the board alone. *)
Theorem format_board_spec (c0 c1 c2 c3 c4 c5 c6 c7 c8 : string) :
  format_board [c0; c1; c2; c3; c4; c5; c6; c7; c8] =
    (c0 +:+ " | " +:+ c1 +:+ " | " +:+ c2) +:+ separator +:+
    (c3 +:+ " | " +:+ c4 +:+ " | " +:+ c5) +:+ separator +:+
    (c6 +:+ " | " +:+ c7 +:+ " | " +:+ c8)
  /\ separator = newline +:+ String.concat "" (replicate 9 "-") +:+ newline.
Proof. split; reflexivity. Qed.

(** ** The session: terminal states and the invariant *)

Lemma count_mark_cons (m c : string) (l : list string) :
  count_mark m (c :: l) = ((if decide (c = m) then 1 else 0) + count_mark m l)%Z.
Proof.
  unfold count_mark. rewrite filter_cons.
  destruct (decide (c = m)); cbn [length]; lia.
Qed.

Lemma count_mark_insert (m old x : string) (l : list string) (i : nat) :
  l !! i = Some old ->
  count_mark m (<[i:=x]> l) =
    (count_mark m l - (if decide (old = m) then 1 else 0)
                    + (if decide (x = m) then 1 else 0))%Z.
Proof.
  revert i. induction l as [|c l IH]; intros [|i] E; cbn in E; try discriminate.
  - injection E as ->. change (<[0:=x]> (old :: l)) with (x :: l).
    rewrite !count_mark_cons.
    destruct (decide (old = m)), (decide (x = m)); lia.
  - change (<[S i:=x]> (c :: l)) with (c :: <[i:=x]> l).
    rewrite !count_mark_cons, (IH i E). lia.
Qed.

Lemma move_keeps_shape (game : GameState) (i : nat) :
  board_shape game ->
  current_player game = "X" \/ current_player game = "O" ->
  board_shape {| board := <[i := current_player game]> (board game);
                 current_player := current_player game |}.
Proof.
  intros [Hlen Hsq] Hp. split; cbn.
  - now rewrite length_insert.
  - apply Forall_insert; [exact Hsq|]. unfold square_ok. tauto.
Qed.

Lemma move_changes_turn (game : GameState) (i : nat) :
  to_move game ->
  board game !! i = Some " " ->
  has_moved {| board := <[i := current_player game]> (board game);
               current_player := current_player game |}.
Proof.
  unfold to_move, has_moved. cbn. intros Hturn Hempty.
  rewrite !(count_mark_insert _ _ _ _ _ Hempty).
  destruct Hturn as [[-> Hbal] | [-> Hbal]]; [left|right]; split; try reflexivity;
    repeat (match goal with |- context [decide ?P] => destruct (decide P) end);
    try (exfalso; congruence); lia.
Qed.

Lemma switch_changes_turn (game : GameState) :
  has_moved game -> to_move (switch_player game).
Proof.
  unfold to_move, has_moved, switch_player. cbn.
  intros [[-> Hbal] | [-> Hbal]]; cbn; [right|left]; auto.
Qed.

Lemma session_inv_well_formed (s : session) :
  session_inv s -> well_formed (game_of s).
Proof.
  unfold session_inv, to_move, has_moved.
  destruct s as [game | mark game | game]; cbn;
    intros [[Hlen Hsq] Hturn]; (split; [exact Hlen|exact Hsq| |]); tauto.
Qed.

Lemma winner_mark_truthy (cells : list string) (m : string) :
  Forall square_ok cells ->
  (exists combo, line_won cells combo m) ->
  truthy (Some m) = true.
Proof.
  intros Hsq (combo & Ea & _ & _ & Hm).
  rewrite Forall_lookup in Hsq. destruct (Hsq _ _ Ea) as [-> | [-> | ->]];
    [now destruct Hm|reflexivity|reflexivity].
Qed.

Section SessionProperties.
Context `{PyText}.

Lemma turn_attempt_inv (game game' : GameState) (choice : string) (o : outcome) :
  turn_attempt game choice = Ok (game', o) ->
  match o with
  | Rejected _ => game' = game
  | Applied =>
      exists i, i < 9 /\ board game !! i = Some " " /\
        game' = {| board := <[i := current_player game]> (board game);
                   current_player := current_player game |}
  end.
Proof.
  unfold turn_attempt. destruct (str_to_int (str_strip choice)) as [n|].
  - intros E. apply apply_move_inv in E. destruct o as [|[]]; try tauto.
    destruct E as (Hrange & Hempty & ->). exists (Z.to_nat (n - 1)).
    split; [lia|]. auto.
  - intros E. now inversion E.
Qed.

(** A turn that returns has filled one empty square with the mark of
    the current player and has read at least one line. *)
Lemma take_turn_from_inv (game game' : GameState) (lines out : list string)
    (io' : console) :
  take_turn_from game lines out = Ok (game', io') ->
  length (stdin io') < length lines /\
  exists i, i < 9 /\ board game !! i = Some " " /\
    game' = {| board := <[i := current_player game]> (board game);
               current_player := current_player game |}.
Proof.
  revert out. induction lines as [|choice lines IH]; intros out; [discriminate|].
  cbn [take_turn_from].
  destruct (turn_attempt game choice) as [[g o]|e] eqn:E; [|discriminate].
  apply turn_attempt_inv in E. destruct o as [|why].
  - intros [= <- <-]. cbn. split; [lia|exact E].
  - subst g. intros E'. apply IH in E' as (Hlen & Hmove). cbn. split; [lia|exact Hmove].
Qed.

Lemma take_turn_inv (game game' : GameState) (io io' : console) :
  take_turn game io = Ok (game', io') ->
  length (stdin io') < length (stdin io) /\
  exists i, i < 9 /\ board game !! i = Some " " /\
    game' = {| board := <[i := current_player game]> (board game);
               current_player := current_player game |}.
Proof. apply take_turn_from_inv. Qed.

(** The tests after a turn either end the session on the game as the
    turn left it, reading nothing, or switch the player. *)
Lemma after_turn_inv (game : GameState) (io io' : console) (s : session) :
  after_turn game io = Ok (s, io') ->
  stdin io' = stdin io /\
  ((exists mark, s = Won mark game /\ winner (board game) = Ok (Some mark)) \/
   (s = Draw game /\ is_draw (board game) = true) \/
   (s = InProgress (switch_player game) /\ io' = io)).
Proof.
  unfold after_turn, after_no_winner.
  destruct (winner (board game)) as [[mark|]|e]; cbn; [| |discriminate].
  - case_bool_decide; [intros [= <- <-]; cbn; eauto|].
    destruct (is_draw (board game)); intros [= <- <-]; cbn; auto.
  - destruct (is_draw (board game)); intros [= <- <-]; cbn; auto.
Qed.

Lemma play_iteration_inv (game : GameState) (io io' : console) (s : session) :
  play_iteration game io = Ok (s, io') ->
  exists game1 io1,
    take_turn game (print_board (board game) io) = Ok (game1, io1) /\
    after_turn game1 io1 = Ok (s, io').
Proof.
  unfold play_iteration.
  destruct (take_turn game (print_board (board game) io)) as [[game1 io1]|e];
    cbn; [eauto|discriminate].
Qed.

Lemma step_keeps_inv (s s' : session) :
  session_inv s -> step s s' -> session_inv s'.
Proof.
  intros Hinv (game & io & io' & -> & E). destruct Hinv as [Hshape Hturn].
  apply play_iteration_inv in E as (game1 & io1 & Eturn & Eafter).
  apply take_turn_inv in Eturn as (_ & i & _ & Hempty & ->).
  assert (Hp : current_player game = "X" \/ current_player game = "O")
    by (destruct Hturn as [[? _]|[? _]]; auto).
  pose proof (move_keeps_shape game i Hshape Hp) as Hshape1.
  pose proof (move_changes_turn game i Hturn Hempty) as Hturn1.
  apply after_turn_inv in Eafter as (_ & [(mark & -> & _) | [(-> & _) | (-> & _)]]);
    cbn; auto.
  split; [exact Hshape1|]. now apply switch_changes_turn.
Qed.

Lemma reachable_inv (s : session) : reachable s -> session_inv s.
Proof.
  induction 1 as [|s s' _ IH Hstep].
  - cbn. split; [split; [reflexivity|cbn; repeat constructor]|].
    left. split; reflexivity.
  - exact (step_keeps_inv s s' IH Hstep).
Qed.

(** C9.  In a state reached from [create_game] by passes of the loop of
    [play_game], whether the session goes on or has ended, and in the
    game a turn taken from such a state returns: the board has nine
    squares, each empty, X or O; the current player is X or O; and the
    number of X minus the number of O is 0 or 1. *)
Theorem reachable_well_formed (s : session) :
  reachable s ->
  well_formed (game_of s) /\
  (forall game io game' io',
     s = InProgress game -> take_turn game io = Ok (game', io') ->
     well_formed game').
Proof.
  intros Hreach. apply reachable_inv in Hreach as Hinv.
  split; [now apply session_inv_well_formed|].
  intros game io game' io' -> Eturn. destruct Hinv as [Hshape Hturn].
  apply take_turn_inv in Eturn as (_ & i & _ & Hempty & ->).
  assert (Hp : current_player game = "X" \/ current_player game = "O")
    by (destruct Hturn as [[? _]|[? _]]; auto).
  apply (session_inv_well_formed (Draw _)). cbn.
  split; [now apply move_keeps_shape|now apply move_changes_turn].
Qed.



(** What the loop returns is a terminal state reached by its passes. *)
Lemma play_loop_reachable (fuel : nat) (game : GameState) (io io' : console)
    (s : session) :
  reachable (InProgress game) ->
  play_loop fuel game io = Some (Ok (s, io')) ->
  reachable s /\ terminal s = true.
Proof.
  revert game io. induction fuel as [|fuel IH]; intros game io Hreach; [discriminate|].
  cbn [play_loop].
  destruct (play_iteration game io) as [[s1 io1]|e] eqn:E; [|discriminate].
  assert (Hreach1 : reachable s1).
  { apply (reach_step (InProgress game)); [exact Hreach|]. exists game, io, io1. auto. }
  destruct s1; [now apply IH| |]; intros [= <- <-]; auto.
Qed.

(** C8.  When the turn of a pass leaves a board (nine squares, each
    empty, X or O) with a complete combination or with no empty square,
    the loop of [play_game] stops in that pass whatever the fuel and the
    input left: the session is [Won] or [Draw] on the game exactly as that
    turn left it, nothing further is read, and the step relation has no
    step out of that state.  It is [Won] exactly when a combination is
    complete. *)
Theorem terminal_states_final (fuel : nat) (game game' : GameState)
    (io io' : console) :
  length (board game') = 9 ->
  Forall square_ok (board game') ->
  take_turn game (print_board (board game) io) = Ok (game', io') ->
  (exists combo m, combo ∈ WINNING_COMBINATIONS /\ line_won (board game') combo m) \/
  Forall (fun square => square ≠ " ") (board game') ->
  exists s io'',
    play_loop (S fuel) game io = Some (Ok (s, io'')) /\
    terminal s = true /\
    game_of s = game' /\
    stdin io'' = stdin io' /\
    (forall s', ~ step s s') /\
    ((exists mark, s = Won mark game') <->
       exists combo m, combo ∈ WINNING_COMBINATIONS /\ line_won (board game') combo m).
Proof.
  intros Hlen Hsq Eturn Hend.
  destruct (winner_returns _ Hlen) as (r & Er & Hnone & Hsome).
  cbn [play_loop]. unfold play_iteration. rewrite Eturn.
  cbn [mbind result_bind]. unfold after_turn. rewrite Er.
  cbn [mbind result_bind mret result_ret]. destruct r as [mark|].
  - destruct (Hsome mark eq_refl) as (combo & Hin & Hwon).
    pose proof (winner_mark_truthy _ mark Hsq (ex_intro _ combo Hwon)) as Htrue.
    rewrite Htrue.
    eexists _, _. split; [reflexivity|]. cbn. split_and!; try reflexivity.
    + intros s' (g & ? & ? & Hs & _). discriminate.
    + split; eauto.
  - specialize (Hnone eq_refl). rewrite Forall_forall in Hnone.
    destruct Hend as [(combo & m & Hin & Hwon) | Hfull];
      [now destruct (Hnone combo Hin m)|].
    unfold after_no_winner. rewrite (proj2 (is_draw_full _) Hfull).
    eexists _, _. split; [reflexivity|]. cbn. split_and!; try reflexivity.
    + intros s' (g & ? & ? & Hs & _). discriminate.
    + split; [intros (mark & Hs); discriminate|].
      intros (combo & m & Hin & Hwon). now destruct (Hnone combo Hin m).
Qed.

End SessionProperties.

(** * Further properties *)

(** ** [winner] on lists of any length *)

Lemma line_complete_sound (cells : list string) (combo : nat * nat * nat) (hit : bool) :
  line_complete cells combo = Ok hit ->
  (hit = true <-> exists m, line_won cells combo m).
Proof.
  destruct combo as [[a b] c]. unfold line_complete, getitem, line_won. cbn.
  destruct (cells !! a) as [x|] eqn:Ea; cbn; [|discriminate].
  case_bool_decide as Hx; cbn.
  - destruct (cells !! b) as [y|] eqn:Eb; cbn; [|discriminate].
    case_bool_decide as Hxy; cbn.
    + destruct (cells !! c) as [z|] eqn:Ec; cbn; [|discriminate].
      intros [= <-]. rewrite bool_decide_eq_true. split.
      * intros <-. subst y. eauto.
      * intros (m & E1 & E2 & E3 & _). congruence.
    + intros [= <-]. split; [discriminate|].
      intros (m & E1 & E2 & _). congruence.
  - intros [= <-]. split; [discriminate|].
    intros (m & E1 & _ & _ & Hm). destruct (decide (x = " ")); congruence.
Qed.

Lemma winner_scan_sound (cells : list string) (combos : list (nat * nat * nat))
    (r : option string) :
  winner_scan cells combos = Ok r ->
  match r with
  | Some m =>
      exists before combo after,
        combos = before ++ combo :: after /\ line_won cells combo m /\
        Forall (no_line cells) before
  | None => Forall (no_line cells) combos
  end.
Proof.
  revert r. induction combos as [|[[a b] c] rest IH]; intros r; cbn [winner_scan].
  - intros [= <-]. constructor.
  - destruct (line_complete cells (a, b, c)) as [hit|e] eqn:Ehit; cbn; [|discriminate].
    apply line_complete_sound in Ehit. destruct hit.
    + destruct (proj1 Ehit eq_refl) as (m & Hwon).
      pose proof Hwon as (Ea & _). cbn in Ea.
      rewrite (getitem_lookup _ _ _ Ea). cbn. intros [= <-].
      exists [], (a, b, c), rest. auto.
    + assert (Hno : no_line cells (a, b, c)).
      { intros m Hm. assert (false = true) by (apply Ehit; eauto). discriminate. }
      intros E. apply IH in E. destruct r as [m|].
      * destruct E as (before & combo & after & -> & Hwon & Hbefore).
        exists ((a, b, c) :: before), combo, after. auto.
      * constructor; assumption.
Qed.

(** X1.  Whatever the length of the list, what [winner] returns is
    right: a returned mark fills the first complete combination of the
    list order and is not the empty square, and [None] means that no
    combination is complete.  The only other outcome is [IndexError]. *)
Theorem winner_sound_any_length (cells : list string) (r : option string) :
  winner cells = Ok r ->
  match r with
  | Some m =>
      m ≠ " " /\
      exists before combo after,
        WINNING_COMBINATIONS = before ++ combo :: after /\
        line_won cells combo m /\ Forall (no_line cells) before
  | None => forall combo, combo ∈ WINNING_COMBINATIONS -> no_line cells combo
  end.
Proof.
  intros E. apply winner_scan_sound in E. destruct r as [m|].
  - split; [|exact E]. destruct E as (_ & combo & _ & _ & Hwon & _). apply Hwon.
  - now apply Forall_forall.
Qed.

Lemma winner_scan_ext (c1 c2 : list string) (combos : list (nat * nat * nat)) :
  (forall i, i < 9 -> c1 !! i = c2 !! i) ->
  Forall (fun combo => combo.1.1 < 9 /\ combo.1.2 < 9 /\ combo.2 < 9) combos ->
  winner_scan c1 combos = winner_scan c2 combos.
Proof.
  intros Hsame. induction 1 as [|[[a b] c] rest (Ha & Hb & Hc) _ IH]; [reflexivity|].
  cbn in Ha, Hb, Hc. cbn [winner_scan]. unfold line_complete, getitem.
  rewrite (Hsame a Ha), (Hsame b Hb), (Hsame c Hc), IH. reflexivity.
Qed.

(** X2.  A list of nine squares or more never makes [winner] raise, and
    only its first nine squares count. *)
Theorem winner_first_nine (cells : list string) :
  9 <= length cells ->
  winner cells = winner (take 9 cells) /\ exists r, winner cells = Ok r.
Proof.
  intros Hlen.
  assert (E : winner cells = winner (take 9 cells)).
  { unfold winner. apply winner_scan_ext.
    - intros i Hi. symmetry. now apply lookup_take_lt.
    - unfold WINNING_COMBINATIONS. repeat constructor; cbn; lia. }
  split; [exact E|]. rewrite E.
  destruct (winner_returns (take 9 cells)) as (r & Er & _); [|eauto].
  rewrite length_take. lia.
Qed.

(** ** [take_turn] as a whole *)

(** X16.  Whatever the length of the board, a position outside 0..8, a
    negative one included, is refused without indexing the board and
    leaves the game alone; the step raises nothing but [IndexError], and
    that exactly when the position is in 0..8 and at or past the end of
    the board. *)
Theorem apply_move_raises (game : GameState) (position : Z) :
  (~ (0 <= position <= 8)%Z ->
     apply_move game position = Ok (game, Rejected InvalidPosition)) /\
  (forall e,
     apply_move game position = Raise e <->
     e = IndexError /\ (0 <= position <= 8)%Z /\
     length (board game) <= Z.to_nat position).
Proof.
  unfold apply_move, getitem, setitem. case_bool_decide as Hrange.
  - split; [lia|]. intros e.
    destruct (board game !! Z.to_nat position) as [square|] eqn:E; cbn.
    + apply lookup_lt_Some in E as Hlt.
      split; [|lia]. case_bool_decide; cbn; [discriminate|].
      rewrite decide_True by exact Hlt. discriminate.
    + apply lookup_ge_None in E. split.
      * intros [= <-]. split; [reflexivity|]. split; [lia|exact E].
      * now intros (-> & _).
  - split; [reflexivity|]. intros e. cbn. split; [discriminate|lia].
Qed.

Section TurnLoop.
Context `{PyText}.

Lemma take_turn_from_accepts (game game' : GameState) (pre post out : list string)
    (reasons : list rejection) (choice : string) :
  Forall2 (fun line why => turn_attempt game line = Ok (game, Rejected why)) pre reasons ->
  turn_attempt game choice = Ok (game', Applied) ->
  take_turn_from game (pre ++ choice :: post) out =
    Ok (game', mkConsole post (out ++ refusal_output game reasons ++ [prompt game])).
Proof.
  intros Hpre Echoice. revert out.
  induction Hpre as [|line why pre reasons Eline _ IH]; intros out; cbn [app take_turn_from].
  - rewrite Echoice. reflexivity.
  - rewrite Eline, IH. cbn. now rewrite <- !app_assoc.
Qed.

Lemma take_turn_from_trace (game game' : GameState) (lines out : list string)
    (io' : console) :
  take_turn_from game lines out = Ok (game', io') ->
  exists pre choice reasons,
    lines = pre ++ choice :: stdin io' /\
    Forall2 (fun line why => turn_attempt game line = Ok (game, Rejected why))
      pre reasons /\
    turn_attempt game choice = Ok (game', Applied) /\
    stdout io' = out ++ refusal_output game reasons ++ [prompt game].
Proof.
  revert out. induction lines as [|line lines IH]; intros out; [discriminate|].
  cbn [take_turn_from].
  destruct (turn_attempt game line) as [[g o]|e] eqn:E; [|discriminate].
  destruct o as [|why].
  - intros [= <- <-]. exists [], line, []. cbn. split_and!; auto.
  - pose proof (turn_attempt_inv _ _ _ _ E) as Hg. cbn in Hg. subst g.
    intros E'. apply IH in E' as (pre & choice & reasons & -> & Hpre & Echoice & Eout).
    exists (line :: pre), choice, (why :: reasons). split_and!; auto.
    rewrite Eout. cbn. now rewrite <- !app_assoc.
Qed.

(** X3.  [take_turn] returns exactly when some line of the input is
    accepted: the lines before the first accepted one are each refused
    and leave the game alone, that line's move is the one applied, the
    lines after it stay unread, and the output grows by one prompt and
    one message per refused line and the prompt of the accepted one. *)
Theorem take_turn_first_accepted (game game' : GameState) (io io' : console) :
  take_turn game io = Ok (game', io') <->
  exists pre choice reasons,
    stdin io = pre ++ choice :: stdin io' /\
    Forall2 (fun line why => turn_attempt game line = Ok (game, Rejected why))
      pre reasons /\
    turn_attempt game choice = Ok (game', Applied) /\
    stdout io' = stdout io ++ refusal_output game reasons ++ [prompt game].
Proof.
  unfold take_turn. split.
  - apply take_turn_from_trace.
  - intros (pre & choice & reasons & -> & Hpre & Echoice & Eout).
    rewrite (take_turn_from_accepts _ _ _ _ _ _ _ Hpre Echoice).
    destruct io' as [rest written]. cbn in Eout. now rewrite Eout.
Qed.

(** X4.  Whatever the game and the input, a turn that returns has
    written the current player's mark into one empty square among the
    first nine and nothing else: the other squares, marks already placed
    included, the length of the board and the current player are as
    before; it has read at least one line and only added to the output. *)
Theorem take_turn_frame (game game' : GameState) (io io' : console) :
  take_turn game io = Ok (game', io') ->
  current_player game' = current_player game /\
  length (board game') = length (board game) /\
  (exists i, i < 9 /\ board game !! i = Some " " /\
     board game' !! i = Some (current_player game) /\
     forall j, j ≠ i -> board game' !! j = board game !! j) /\
  (forall j mark, board game !! j = Some mark -> mark ≠ " " ->
     board game' !! j = Some mark) /\
  (exists read, read ≠ [] /\ stdin io = read ++ stdin io') /\
  (exists written, stdout io' = stdout io ++ written).
Proof.
  intros E. pose proof (take_turn_inv _ _ _ _ E) as (_ & i & Hi & Hempty & ->).
  apply take_turn_from_trace in E as (pre & choice & reasons & Ein & _ & _ & Eout).
  cbn. apply lookup_lt_Some in Hempty as Hlt. split_and!.
  - reflexivity.
  - now rewrite length_insert.
  - exists i. split_and!; auto.
    + now apply list_lookup_insert_eq.
    + intros j Hj. now apply list_lookup_insert_ne.
  - intros j mark Ej Hmark. rewrite list_lookup_insert_ne; [exact Ej|].
    intros <-. congruence.
  - exists (pre ++ [choice]). split; [now destruct pre|].
    now rewrite <- app_assoc.
  - eauto.
Qed.

(** X5.  On a board of nine squares with no empty square [take_turn]
    accepts nothing: whatever the input, every line is refused and the
    turn ends in [EOFError] when the input runs out. *)
Theorem take_turn_full_board (game : GameState) (io : console) :
  length (board game) = 9 ->
  is_draw (board game) = true ->
  take_turn game io = Raise EOFError.
Proof.
  intros Hlen Hfull. apply is_draw_full in Hfull. rewrite Forall_lookup in Hfull.
  unfold take_turn. generalize (stdout io) as out. generalize (stdin io) as lines.
  induction lines as [|line lines IH]; intros out; [reflexivity|].
  cbn [take_turn_from].
  destruct (turn_attempt game line) as [[g o]|e] eqn:E.
  - apply turn_attempt_inv in E. destruct o as [|why].
    + destruct E as (i & _ & Hempty & _). now destruct (Hfull _ _ Hempty).
    + subst g. apply IH.
  - exfalso. unfold turn_attempt in E.
    destruct (str_to_int (str_strip line)) as [n|]; [|discriminate].
    destruct (apply_move_total game (n - 1) Hlen) as (g & o & E'). congruence.
Qed.

End TurnLoop.

(** ** The passes of [play_game] *)

Lemma is_draw_blank (cells : list string) :
  is_draw cells = false -> exists i, cells !! i = Some " ".
Proof.
  unfold is_draw. induction cells as [|square cells IH]; cbn; [discriminate|].
  case_bool_decide as Hsq; cbn.
  - intros E. destruct (IH E) as (i & Ei). now exists (S i).
  - intros _. exists 0. cbn. destruct (decide (square = " ")); congruence.
Qed.

Lemma is_draw_count (cells : list string) :
  is_draw cells = true <-> count_mark " " cells = 0%Z.
Proof.
  unfold is_draw. induction cells as [|square cells IH]; [easy|].
  rewrite count_mark_cons. cbn [forallb].
  assert (0 <= count_mark " " cells)%Z by (unfold count_mark; lia).
  rewrite andb_true_iff, IH, bool_decide_eq_true.
  destruct (decide (square = " ")); split; try lia; tauto.
Qed.

Lemma count_marks_total (cells : list string) :
  Forall square_ok cells ->
  (count_mark "X" cells + count_mark "O" cells + count_mark " " cells
   = Z.of_nat (length cells))%Z.
Proof.
  induction 1 as [|square cells Hsq _ IH]; [reflexivity|].
  rewrite !count_mark_cons. cbn [length].
  destruct Hsq as [-> | [-> | ->]];
    repeat (match goal with |- context [decide ?P] => destruct (decide P) end);
    try (exfalso; congruence); lia.
Qed.

(** The tests after a turn, on a board of the data model. *)
Lemma after_turn_shape (game : GameState) (io io' : console) (s : session) :
  board_shape game ->
  after_turn game io = Ok (s, io') ->
  io' = (if terminal s
         then py_print (verdict s) (print_board (board game) io) else io) /\
  match s with
  | Won mark g =>
      g = game /\ winner (board game) = Ok (Some mark) /\
      exists combo, combo ∈ WINNING_COMBINATIONS /\ line_won (board game) combo mark
  | Draw g =>
      g = game /\ winner (board game) = Ok None /\
      Forall (no_line (board game)) WINNING_COMBINATIONS /\
      is_draw (board game) = true
  | InProgress g =>
      g = switch_player game /\ winner (board game) = Ok None /\
      Forall (no_line (board game)) WINNING_COMBINATIONS /\
      is_draw (board game) = false
  end.
Proof.
  intros [Hlen Hsq]. destruct (winner_returns _ Hlen) as (r & Er & Hnone & Hsome).
  unfold after_turn. rewrite Er. cbn [mbind result_bind mret result_ret].
  destruct r as [mark|].
  - destruct (Hsome mark eq_refl) as (combo & Hin & Hwon).
    rewrite (winner_mark_truthy _ mark Hsq (ex_intro _ combo Hwon)).
    intros [= <- <-]. cbn. eauto 6.
  - specialize (Hnone eq_refl). unfold after_no_winner.
    destruct (is_draw (board game)) eqn:Edraw; intros [= <- <-]; cbn; auto.
Qed.

(** A line completed by a move on an empty square belongs to the mover. *)
Lemma new_line_is_movers (cells : list string) (i : nat) (p m : string)
    (combo : nat * nat * nat) :
  no_line cells combo ->
  cells !! i = Some " " ->
  line_won (<[i:=p]> cells) combo m ->
  m = p.
Proof.
  intros Hno Hempty (Ea & Eb & Ec & Hm). apply lookup_lt_Some in Hempty as Hlt.
  destruct (decide (i = combo.1.1)) as [->|Ha];
    [rewrite list_lookup_insert_eq in Ea by exact Hlt; congruence|].
  destruct (decide (i = combo.1.2)) as [->|Hb];
    [rewrite list_lookup_insert_eq in Eb by exact Hlt; congruence|].
  destruct (decide (i = combo.2)) as [->|Hc];
    [rewrite list_lookup_insert_eq in Ec by exact Hlt; congruence|].
  rewrite list_lookup_insert_ne in Ea, Eb, Ec by assumption.
  now destruct (Hno m).
Qed.

Section Passes.
Context `{PyText}.

(** What one pass does from an open game. *)
Lemma pass_from_open (game : GameState) (io io' : console) (s : session) :
  open_game game ->
  play_iteration game io = Ok (s, io') ->
  exists i,
    i < 9 /\ board game !! i = Some " " /\
    let game1 := {| board := <[i := current_player game]> (board game);
                    current_player := current_player game |} in
    board_shape game1 /\ has_moved game1 /\
    match s with
    | InProgress g => g = switch_player game1 /\ open_game g
    | Won mark g =>
        g = game1 /\ mark = current_player game /\
        winner (board game1) = Ok (Some mark)
    | Draw g =>
        g = game1 /\ winner (board game1) = Ok None /\ is_draw (board game1) = true
    end.
Proof.
  intros (Hshape & Hturn & Hopen & _) E.
  apply play_iteration_inv in E as (game1 & io1 & Eturn & Eafter).
  apply take_turn_inv in Eturn as (_ & i & Hi & Hempty & ->).
  assert (Hp : current_player game = "X" \/ current_player game = "O")
    by (destruct Hturn as [[? _]|[? _]]; auto).
  pose proof (move_keeps_shape game i Hshape Hp) as Hshape1.
  pose proof (move_changes_turn game i Hturn Hempty) as Hturn1.
  exists i. split; [exact Hi|]. split; [exact Hempty|]. cbv zeta.
  split; [exact Hshape1|]. split; [exact Hturn1|].
  apply (after_turn_shape _ _ _ _ Hshape1) in Eafter as (_ & Hs).
  destruct s as [g | mark g | g].
  - destruct Hs as (-> & _ & Hno & Hdraw). split; [reflexivity|].
    unfold open_game. split; [exact Hshape1|].
    split; [now apply switch_changes_turn|]. split; [exact Hno|exact Hdraw].
  - destruct Hs as (-> & Ewin & combo & Hin & Hwon).
    split; [reflexivity|]. split; [|exact Ewin].
    rewrite Forall_forall in Hopen.
    exact (new_line_is_movers _ _ _ _ _ (Hopen combo Hin) Hempty Hwon).
  - destruct Hs as (-> & Ewin & _ & Hdraw). auto.
Qed.

Lemma create_game_open : open_game create_game.
Proof.
  split_and!.
  - split; [reflexivity|]. cbn. repeat (constructor; [unfold square_ok; auto|]).
    constructor.
  - left. split; reflexivity.
  - unfold WINNING_COMBINATIONS.
    repeat (constructor; [intros m (E & _ & _ & Hm); cbn in E; congruence|]).
    constructor.
  - reflexivity.
Qed.

Lemma reachable_open (game : GameState) :
  reachable (InProgress game) -> open_game game.
Proof.
  intros Hreach. remember (InProgress game) as s eqn:Es. revert game Es.
  induction Hreach as [|s s' _ IH (g0 & io & io' & -> & E)]; intros game Es.
  - injection Es as <-. apply create_game_open.
  - subst s'. specialize (IH g0 eq_refl).
    destruct (pass_from_open _ _ _ _ IH E) as (i & _ & _ & _ & _ & _ & Hopen).
    exact Hopen.
Qed.

(** X6.  While the session is in progress the game is really open: in
    every state the loop of [play_game] reaches before a turn, [winner]
    returns [None], [is_draw] is false and one of the nine squares is
    empty, so the player prompted can always be given a square. *)
Theorem in_progress_is_open (game : GameState) :
  reachable (InProgress game) ->
  winner (board game) = Ok None /\
  is_draw (board game) = false /\
  exists i, i < 9 /\ board game !! i = Some " ".
Proof.
  intros Hreach. apply reachable_open in Hreach as ([Hlen _] & _ & Hno & Hdraw).
  split_and!.
  - destruct (winner_returns _ Hlen) as ([m|] & Er & _ & Hsome); [|exact Er].
    destruct (Hsome m eq_refl) as (combo & Hin & Hwon).
    rewrite Forall_forall in Hno. now destruct (Hno combo Hin m).
  - exact Hdraw.
  - destruct (is_draw_blank _ Hdraw) as (i & Ei). exists i. split; [|exact Ei].
    apply lookup_lt_Some in Ei. lia.
Qed.

(** X7.  Players alternate: a pass that leaves the session in progress
    has put the mark of the player who was to move on one empty square
    and has handed the turn to the other player. *)
Theorem players_alternate (game game' : GameState) :
  reachable (InProgress game) ->
  step (InProgress game) (InProgress game') ->
  (current_player game = "X" /\ current_player game' = "O" \/
   current_player game = "O" /\ current_player game' = "X") /\
  exists i, i < 9 /\ board game !! i = Some " " /\
    board game' = <[i := current_player game]> (board game).
Proof.
  intros Hreach (g & io & io' & [= <-] & E). apply reachable_open in Hreach as Hopen.
  destruct (pass_from_open _ _ _ _ Hopen E) as (i & Hi & Hempty & _ & _ & -> & _).
  split; [|eauto].
  destruct Hopen as (_ & [[Ep _]|[Ep _]] & _); unfold switch_player; cbn;
    rewrite Ep; cbn; auto.
Qed.

(** X8.  The winner announced is the player who has just moved: in a
    reached state [Won mark game] the mark is the current player of the
    game, X or O, it is what [winner] returns on the board, and X has then
    one mark more than O, or O as many as X. *)
Theorem won_by_the_mover (mark : string) (game : GameState) :
  reachable (Won mark game) ->
  mark = current_player game /\
  winner (board game) = Ok (Some mark) /\
  ((mark = "X" /\
    count_mark "X" (board game) - count_mark "O" (board game) = 1)%Z \/
   (mark = "O" /\
    count_mark "X" (board game) - count_mark "O" (board game) = 0)%Z).
Proof.
  intros Hreach. inversion Hreach as [|s s' Hprev (g0 & io & io' & -> & E) Es].
  apply reachable_open in Hprev.
  destruct (pass_from_open _ _ _ _ Hprev E)
    as (i & _ & _ & _ & Hmoved & -> & -> & Ewin).
  split_and!; [reflexivity|exact Ewin|exact Hmoved].
Qed.

(** X9.  A draw is declared on a full board without a complete
    combination, after a move of X: five X and four O. *)
Theorem draw_after_nine_moves (game : GameState) :
  reachable (Draw game) ->
  is_draw (board game) = true /\
  winner (board game) = Ok None /\
  current_player game = "X" /\
  count_mark "X" (board game) = 5%Z /\
  count_mark "O" (board game) = 4%Z.
Proof.
  intros Hreach. inversion Hreach as [|s s' Hprev (g0 & io & io' & -> & E) Es].
  apply reachable_open in Hprev.
  destruct (pass_from_open _ _ _ _ Hprev E)
    as (i & _ & _ & [Hlen Hsq] & Hmoved & -> & Ewin & Hdraw).
  pose proof (count_marks_total _ Hsq) as Htotal.
  rewrite (proj1 (is_draw_count _) Hdraw), Hlen in Htotal.
  split_and!; [exact Hdraw|exact Ewin| | |];
    destruct Hmoved as [[Ep Hbal]|[Ep Hbal]]; try exact Ep; lia.
Qed.

End Passes.

(** ** [play_game] from start to end *)


Section WholeGame.
Context `{PyText}.







End WholeGame.

(** ** Rendering and marks *)

(** X12.  [format_board] never fails and renders the first nine squares
    only: squares past the ninth do not show. *)
Theorem format_board_first_nine (cells : list string) :
  format_board cells = format_board (take 9 cells).
Proof.
  do 9 (destruct cells as [|? cells]; [reflexivity|]). reflexivity.
Qed.

(** X13.  With one character in each of nine squares the text is 49
    characters long, and it tells the board: two such boards with the
    same text are the same board. *)
Theorem format_board_readback (b1 b2 : list string) :
  length b1 = 9 -> length b2 = 9 ->
  Forall one_char b1 -> Forall one_char b2 ->
  String.length (format_board b1) = 49 /\
  (format_board b1 = format_board b2 -> b1 = b2).
Proof.
  intros H1 H2 Hc1 Hc2.
  do 9 (destruct b1 as [|? b1]; [discriminate|]). destruct b1; [|discriminate].
  do 9 (destruct b2 as [|? b2]; [discriminate|]). destruct b2; [|discriminate].
  repeat match goal with
         | Hc : Forall one_char (_ :: _) |- _ =>
             apply Forall_cons in Hc as [[? ->] Hc]
         end.
  split; [reflexivity|]. vm_compute. congruence.
Qed.

(** X14.  Whatever the state, three switches are one switch: after the
    first, the player is X or O and the switch undoes itself. *)
Theorem switch_player_thrice (game : GameState) :
  switch_player (switch_player (switch_player game)) = switch_player game /\
  (current_player (switch_player game) = "X" \/
   current_player (switch_player game) = "O").
Proof.
  destruct game as [cells player]. unfold switch_player. cbn.
  destruct (bool_decide (player = "X")); (split; [reflexivity|]);
    [right|left]; reflexivity.
Qed.

Lemma line_complete_relabel (f : string -> string) (cells : list string)
    (combo : nat * nat * nat) :
  Inj (=) (=) f -> f " " = " " ->
  line_complete (f <$> cells) combo = line_complete cells combo.
Proof.
  intros Hinj Hblank. destruct combo as [[a b] c].
  unfold line_complete, getitem. rewrite !list_lookup_fmap.
  destruct (cells !! a) as [x|]; cbn; [|reflexivity].
  rewrite (bool_decide_ext (f x ≠ " ") (x ≠ " "))
    by (rewrite <- Hblank at 1; split; intros Hne E; apply Hne; [now f_equal|now apply Hinj]).
  case_bool_decide; cbn; [|reflexivity].
  destruct (cells !! b) as [y|]; cbn; [|reflexivity].
  rewrite (bool_decide_ext (f x = f y) (x = y))
    by (split; [apply Hinj|now intros ->]).
  case_bool_decide; cbn; [|reflexivity].
  destruct (cells !! c) as [z|]; cbn; [|reflexivity].
  now rewrite (bool_decide_ext (f y = f z) (y = z))
    by (split; [apply Hinj|now intros ->]).
Qed.

(** X15.  [winner] does not care which mark is which: renaming the
    strings on the board by a one-to-one function that keeps the empty
    square renames the mark returned, and changes nothing else, not even
    an [IndexError]. *)
Theorem winner_relabel (f : string -> string) (cells : list string) :
  Inj (=) (=) f -> f " " = " " ->
  winner (f <$> cells) =
    match winner cells with
    | Ok r => Ok (f <$> r)
    | Raise e => Raise e
    end.
Proof.
  intros Hinj Hblank. unfold winner.
  induction WINNING_COMBINATIONS as [|[[a b] c] rest IH]; [reflexivity|].
  cbn [winner_scan]. rewrite (line_complete_relabel f cells (a, b, c) Hinj Hblank).
  destruct (line_complete cells (a, b, c)) as [[|]|e]; cbn; [| |reflexivity].
  - unfold getitem. rewrite list_lookup_fmap.
    now destruct (cells !! a).
  - exact IH.
Qed.

(** * Concrete runs *)

(** The scenarios of the specification, run on decimal input. *)

Example top_row_wins :
  exists io,
    @play_game decimal_text (mkConsole ["1"; "5"; "2"; "8"; "3"; "9"] []) =
      Some (Ok (Won "X" (mkGame ["X"; "X"; "X"; " "; "O"; " "; " "; "O"; " "] "X"), io))
    /\ stdin io = ["9"].
Proof. eexists. split; reflexivity. Qed.

Example full_board_draws :
  exists io,
    @play_game decimal_text
      (mkConsole ["1"; "2"; "3"; "5"; "4"; "6"; "8"; "7"; "9"] []) =
      Some (Ok (Draw (mkGame ["X"; "O"; "X"; "X"; "O"; "O"; "O"; "X"; "X"] "X"), io))
    /\ winner ["X"; "O"; "X"; "X"; "O"; "O"; "O"; "X"; "X"] = Ok None
    /\ is_draw ["X"; "O"; "X"; "X"; "O"; "O"; "O"; "X"; "X"] = true.
Proof. eexists. split_and!; reflexivity. Qed.

Example occupied_square_refused :
  @turn_attempt decimal_text
    (mkGame ["X"; " "; " "; " "; " "; " "; " "; " "; " "] "O") " 1 " =
  Ok (mkGame ["X"; " "; " "; " "; " "; " "; " "; " "; " "] "O", Rejected CellOccupied).
Proof. reflexivity. Qed.

Example text_refused :
  @take_turn decimal_text create_game (mkConsole ["ten"; "10"; "0"; "5"; "6"] []) =
  Ok (mkGame [" "; " "; " "; " "; "X"; " "; " "; " "; " "] "X",
      mkConsole ["6"]
        [ "Player X, choose a square (1-9): ";
          "Please enter a number from 1 to 9." +:+ newline;
          "Player X, choose a square (1-9): ";
          "Please enter a number from 1 to 9." +:+ newline;
          "Player X, choose a square (1-9): ";
          "Please enter a number from 1 to 9." +:+ newline;
          "Player X, choose a square (1-9): " ]).
Proof. reflexivity. Qed.

Example input_exhausted :
  @play_game decimal_text (mkConsole ["1"; "1"] []) = Some (Raise EOFError).
Proof. reflexivity. Qed.

(** A list shorter than nine squares is not a board: indexing fails. *)
Example short_board_raises : winner [" "; " "; " "] = Raise IndexError.
Proof. reflexivity. Qed.

(** Outside the data model: three empty strings in a row make [winner]
    return the empty string, which [if win:] takes for false. *)
Example empty_string_is_no_win :
  winner [""; ""; ""; " "; " "; " "; " "; " "; " "] = Ok (Some "") /\
  after_turn (mkGame [""; ""; ""; " "; " "; " "; " "; " "; " "] "X") (mkConsole [] []) =
    Ok (InProgress (mkGame [""; ""; ""; " "; " "; " "; " "; " "; " "] "O"),
        mkConsole [] []).
Proof. split; reflexivity. Qed.

Lemma winner_spec_witness :
  length ["X"; "X"; "X"; "O"; "O"; " "; " "; " "; " "] = 9 /\
  exists combo m,
    combo ∈ WINNING_COMBINATIONS /\
    line_won ["X"; "X"; "X"; "O"; "O"; " "; " "; " "; " "] combo m.
Proof.
  split; [reflexivity|].
  apply (winner_spec ["X"; "X"; "X"; "O"; "O"; " "; " "; " "; " "] eq_refl).
  exists "X". reflexivity.
Defined.

Lemma apply_move_rejects_witness :
  length (board (mkGame ["X"; " "; " "; " "; " "; " "; " "; " "; " "] "O")) = 9 /\
  exists game',
    apply_move (mkGame ["X"; " "; " "; " "; " "; " "; " "; " "; " "] "O") 0 =
      Ok (game', Rejected CellOccupied).
Proof.
  split; [reflexivity|].
  apply (@apply_move_rejects decimal_text
           (mkGame ["X"; " "; " "; " "; " "; " "; " "; " "; " "] "O") 0 eq_refl).
  split; [lia|]. exists "X". split; [reflexivity|discriminate].
Defined.

Lemma apply_move_sets_square_witness :
  length (board create_game) = 9 /\ (0 <= 4 <= 8)%Z /\
  board create_game !! Z.to_nat 4 = Some " " /\
  exists game',
    apply_move create_game 4 = Ok (game', Applied) /\
    board game' !! Z.to_nat 4 = Some (current_player create_game) /\
    (forall q, q ≠ Z.to_nat 4 -> board game' !! q = board create_game !! q) /\
    length (board game') = 9 /\
    current_player game' = current_player create_game.
Proof.
  split; [reflexivity|]. split; [lia|]. split; [reflexivity|].
  apply (apply_move_sets_square create_game 4 eq_refl); [lia|reflexivity].
Defined.

Lemma is_draw_spec_witness :
  length ["X"; "O"; "X"; "X"; "O"; "O"; "O"; "X"; "X"] = 9 /\
  Forall (fun square => square ≠ " ") ["X"; "O"; "X"; "X"; "O"; "O"; "O"; "X"; "X"].
Proof.
  split; [reflexivity|].
  apply (is_draw_spec ["X"; "O"; "X"; "X"; "O"; "O"; "O"; "X"; "X"] eq_refl).
  reflexivity.
Defined.

Lemma switch_player_involution_witness :
  (current_player create_game = "X" \/ current_player create_game = "O") /\
  switch_player (switch_player create_game) = create_game.
Proof.
  split; [left; reflexivity|].
  apply (switch_player_involution create_game). left. reflexivity.
Defined.

Lemma switch_player_other_witness :
  current_player (mkGame (replicate 9 " ") "Z") ≠ "X" /\
  current_player (switch_player (mkGame (replicate 9 " ") "Z")) = "X" /\
  current_player (switch_player (switch_player (mkGame (replicate 9 " ") "Z"))) = "O".
Proof.
  split; [discriminate|].
  destruct (switch_player_other (mkGame (replicate 9 " ") "Z")) as (E1 & E2 & _);
    [discriminate|].
  split; [exact E1|exact E2].
Defined.

Lemma reachable_well_formed_witness :
  @reachable decimal_text
    (InProgress (mkGame [" "; " "; " "; " "; "X"; " "; " "; " "; " "] "O")) /\
  well_formed (mkGame [" "; " "; " "; " "; "X"; " "; " "; " "; " "] "O").
Proof.
  assert (Hreach : @reachable decimal_text
            (InProgress (mkGame [" "; " "; " "; " "; "X"; " "; " "; " "; " "] "O"))).
  { apply (reach_step (InProgress create_game)); [apply reach_create|].
    exists create_game, (mkConsole ["5"] []). eexists. split; reflexivity. }
  split; [exact Hreach|].
  exact (proj1 (@reachable_well_formed decimal_text _ Hreach)).
Defined.

Lemma terminal_states_final_witness :
  exists s io,
    @play_loop decimal_text 7
      (mkGame ["X"; "X"; " "; "O"; "O"; " "; " "; " "; " "] "X")
      (mkConsole ["3"; "9"; "7"] []) = Some (Ok (s, io)) /\
    terminal s = true /\
    game_of s = mkGame ["X"; "X"; "X"; "O"; "O"; " "; " "; " "; " "] "X" /\
    stdin io = ["9"; "7"].
Proof.
  destruct (@terminal_states_final decimal_text 6
              (mkGame ["X"; "X"; " "; "O"; "O"; " "; " "; " "; " "] "X")
              (mkGame ["X"; "X"; "X"; "O"; "O"; " "; " "; " "; " "] "X")
              (mkConsole ["3"; "9"; "7"] [])
              (mkConsole ["9"; "7"]
                 [format_board ["X"; "X"; " "; "O"; "O"; " "; " "; " "; " "] +:+ newline;
                  "Player X, choose a square (1-9): "]))
    as (s & io & E & Hterm & Hgame & Hin & _).
  - reflexivity.
  - repeat (constructor; [unfold square_ok; auto|]). constructor.
  - reflexivity.
  - left. exists (0, 1, 2), "X". split.
    + apply elem_of_cons. now left.
    + unfold line_won. cbn. split_and!; try reflexivity. discriminate.
  - exists s, io. auto.
Defined.

(** * Concrete runs of the further properties *)

Lemma swap_marks_inj : Inj (=) (=) swap_marks.
Proof.
  intros x y. unfold swap_marks.
  repeat case_bool_decide; subst; intros E; congruence.
Qed.

Lemma reachable_after_centre :
  @reachable decimal_text
    (InProgress (mkGame [" "; " "; " "; " "; "X"; " "; " "; " "; " "] "O")).
Proof.
  apply (reach_step (InProgress create_game)); [apply reach_create|].
  exists create_game, (mkConsole ["5"] []). eexists. split; reflexivity.
Qed.

Lemma reachable_top_row :
  @reachable decimal_text
    (Won "X" (mkGame ["X"; "X"; "X"; " "; "O"; " "; " "; "O"; " "] "X")).
Proof.
  refine (proj1 (@play_loop_reachable decimal_text 9 create_game
                   (mkConsole ["1"; "5"; "2"; "8"; "3"] []) _ _ reach_create _)).
  reflexivity.
Qed.

Lemma reachable_full_board :
  @reachable decimal_text
    (Draw (mkGame ["X"; "O"; "X"; "X"; "O"; "O"; "O"; "X"; "X"] "X")).
Proof.
  refine (proj1 (@play_loop_reachable decimal_text 9 create_game
                   (mkConsole ["1"; "2"; "3"; "5"; "4"; "6"; "8"; "7"; "9"] [])
                   _ _ reach_create _)).
  reflexivity.
Qed.

Lemma winner_sound_any_length_witness :
  winner ["O"; "O"; "O"] = Ok (Some "O") /\
  "O" ≠ " " /\
  exists before combo after,
    WINNING_COMBINATIONS = before ++ combo :: after /\
    line_won ["O"; "O"; "O"] combo "O" /\
    Forall (no_line ["O"; "O"; "O"]) before.
Proof.
  split; [reflexivity|].
  exact (winner_sound_any_length ["O"; "O"; "O"] (Some "O") eq_refl).
Defined.

Lemma winner_first_nine_witness :
  9 <= length [" "; "O"; " "; "X"; "X"; "X"; " "; "O"; " "; "O"] /\
  winner [" "; "O"; " "; "X"; "X"; "X"; " "; "O"; " "; "O"] =
    winner (take 9 [" "; "O"; " "; "X"; "X"; "X"; " "; "O"; " "; "O"]).
Proof.
  split; [cbn; lia|].
  apply (winner_first_nine [" "; "O"; " "; "X"; "X"; "X"; " "; "O"; " "; "O"]).
  cbn. lia.
Defined.

Lemma take_turn_frame_witness :
  exists game' io',
    @take_turn decimal_text create_game (mkConsole ["x"; "5"; "6"] []) = Ok (game', io') /\
    current_player game' = current_player create_game /\
    length (board game') = length (board create_game) /\
    exists read, read ≠ [] /\ ["x"; "5"; "6"] = read ++ stdin io'.
Proof.
  eexists _, _. split; [reflexivity|].
  destruct (@take_turn_frame decimal_text create_game _
              (mkConsole ["x"; "5"; "6"] []) _ eq_refl)
    as (Ep & Elen & _ & _ & Hread & _).
  split; [exact Ep|]. split; [exact Elen|exact Hread].
Defined.

Lemma take_turn_full_board_witness :
  length (board (mkGame ["X"; "O"; "X"; "X"; "O"; "O"; "O"; "X"; "X"] "O")) = 9 /\
  is_draw (board (mkGame ["X"; "O"; "X"; "X"; "O"; "O"; "O"; "X"; "X"] "O")) = true /\
  @take_turn decimal_text (mkGame ["X"; "O"; "X"; "X"; "O"; "O"; "O"; "X"; "X"] "O")
    (mkConsole ["1"; "9"; "5"] []) = Raise EOFError.
Proof.
  split; [reflexivity|]. split; [reflexivity|].
  apply (@take_turn_full_board decimal_text); reflexivity.
Defined.

Lemma in_progress_is_open_witness :
  winner [" "; " "; " "; " "; "X"; " "; " "; " "; " "] = Ok None /\
  is_draw [" "; " "; " "; " "; "X"; " "; " "; " "; " "] = false /\
  exists i, i < 9 /\ [" "; " "; " "; " "; "X"; " "; " "; " "; " "] !! i = Some " ".
Proof.
  exact (@in_progress_is_open decimal_text _ reachable_after_centre).
Defined.

Lemma players_alternate_witness :
  current_player create_game = "X" /\
  current_player (mkGame [" "; " "; " "; " "; "X"; " "; " "; " "; " "] "O") = "O".
Proof.
  destruct (@players_alternate decimal_text create_game
              (mkGame [" "; " "; " "; " "; "X"; " "; " "; " "; " "] "O"))
    as ([Hturn | [Hx _]] & _).
  - apply reach_create.
  - exists create_game, (mkConsole ["5"] []). eexists. split; reflexivity.
  - exact Hturn.
  - discriminate Hx.
Defined.

Lemma won_by_the_mover_witness :
  "X" = current_player (mkGame ["X"; "X"; "X"; " "; "O"; " "; " "; "O"; " "] "X") /\
  winner ["X"; "X"; "X"; " "; "O"; " "; " "; "O"; " "] = Ok (Some "X").
Proof.
  destruct (@won_by_the_mover decimal_text _ _ reachable_top_row) as (Ep & Ew & _).
  split; [exact Ep|exact Ew].
Defined.

Lemma draw_after_nine_moves_witness :
  count_mark "X" ["X"; "O"; "X"; "X"; "O"; "O"; "O"; "X"; "X"] = 5%Z /\
  count_mark "O" ["X"; "O"; "X"; "X"; "O"; "O"; "O"; "X"; "X"] = 4%Z.
Proof.
  destruct (@draw_after_nine_moves decimal_text _ reachable_full_board)
    as (_ & _ & _ & Ex & Eo).
  split; [exact Ex|exact Eo].
Defined.

Lemma format_board_readback_witness :
  length (board create_game) = 9 /\
  Forall one_char (board create_game) /\
  String.length (format_board (board create_game)) = 49.
Proof.
  assert (Hc : Forall one_char (board create_game)).
  { cbn. repeat (constructor; [eexists; reflexivity|]). constructor. }
  split; [reflexivity|]. split; [exact Hc|].
  exact (proj1 (format_board_readback (board create_game) (board create_game)
                  eq_refl eq_refl Hc Hc)).
Defined.

Lemma winner_relabel_witness :
  swap_marks " " = " " /\
  winner (swap_marks <$> ["X"; "X"; "X"; " "; "O"; " "; " "; "O"; " "]) = Ok (Some "O").
Proof.
  split; [reflexivity|].
  rewrite (winner_relabel swap_marks ["X"; "X"; "X"; " "; "O"; " "; " "; "O"; " "]
             swap_marks_inj eq_refl).
  reflexivity.
Defined.
